(** * The A/B experiment hooks of the homepage

  A shallow embedding of [useAnonId] and [useAbTest] from
  [src/app/new-homepage/page.tsx], together with the small part of the
  browser and of React that the two hooks run against:

  - [window.localStorage], a map from keys to the raw stored text;
  - [window.Inngest.event], the analytics client, kept as the log of the
    events it was handed;
  - the hook cells React keeps for a mounted component ([useState] inside
    react-use's [useLocalStorage], [useMemo], [useEffect]), and the
    render / commit cycle that drives them.

  The third-party functions ([deterministicSplit], and the [JSON.parse] /
  [JSON.stringify] pair that [useLocalStorage] uses by default) are
  parameters of the development. *)

From stdpp Require Import base option strings list gmap.

(** ** JavaScript values *)

Module Js.

(** [`${v}`] for a [v : string | undefined]. *)
Definition template (v : option string) : string :=
  match v with
  | Some s => s
  | None => "undefined"
  end.

(** Truthiness of a string: only the empty string is falsy. *)
Definition truthy (s : string) : bool :=
  match s with
  | EmptyString => false
  | String _ _ => true
  end.

End Js.

(** ** The browser window *)

Module Analytics.

Record Data := {
  anonymous_id : option string;
  experiment : string;
  variant : string;
}.

Record Event := {
  name : string;
  data : Data;
}.

#[global] Instance Data_eq_dec : EqDecision Data.
Proof. solve_decision. Defined.

#[global] Instance Event_eq_dec : EqDecision Event.
Proof. solve_decision. Defined.

End Analytics.

Record Window := {
  localStorage : gmap string string;
  Inngest : list Analytics.Event;
}.

(** [localStorage.getItem(key)] *)
Definition getItem (key : string) (w : Window) : option string :=
  localStorage w !! key.

(** [localStorage.setItem(key, value)] *)
Definition setItem (key value : string) (w : Window) : Window :=
  {| localStorage := <[key := value]> (localStorage w);
     Inngest := Inngest w |}.

(** [window.Inngest.event(ev)]: the client records the event. *)
Definition Inngest_event (ev : Analytics.Event) (w : Window) : Window :=
  {| localStorage := localStorage w;
     Inngest := Inngest w ++ [ev] |}.

(** A browser that has never seen the site. *)
Definition fresh_window : Window :=
  {| localStorage := ∅; Inngest := [] |}.

(** The events the analytics client received between two windows. *)
Definition emitted (before after : Window) : list Analytics.Event :=
  drop (length (Inngest before)) (Inngest after).

(** ** The experiments *)

(** [keyof typeof abExperiments] *)
Inductive ExperimentName := header | footer.

#[global] Instance ExperimentName_eq_dec : EqDecision ExperimentName.
Proof. solve_decision. Defined.

(** The property name an [ExperimentName] stands for. *)
Definition key_of (e : ExperimentName) : string :=
  match e with
  | header => "header"
  | footer => "footer"
  end.

(** AB experiments with keys as experiment names and values as the
    variants. *)
Definition abExperiments (e : ExperimentName) : list string :=
  match e with
  | header => ["kill-queues-headline"; "event-driven-headerline"]
  | footer => ["removed"; "highlighted"]
  end.

(** ** React hook cells *)

(** [useMemo(factory, deps)]: the cell keeps the dependencies and the value
    of the last computation; the factory runs on mount and whenever the
    dependencies differ from the kept ones. *)
Definition useMemo {D V : Type} `{EqDecision D}
    (cell : option (D * V)) (factory : unit → V) (deps : D)
  : option (D * V) * V :=
  match cell with
  | Some (prevDeps, value) =>
      if decide (prevDeps = deps) then (cell, value)
      else let value' := factory () in (Some (deps, value'), value')
  | None => let value' := factory () in (Some (deps, value'), value')
  end.

(** [useEffect(effect, deps)]: the cell keeps the dependencies of the last
    render; the effect is scheduled on mount and whenever the dependencies
    differ from the kept ones.  A scheduled effect runs at commit. *)
Definition useEffect {D : Type} `{EqDecision D}
    (cell : option D) (effect : Window → Window) (deps : D)
  : option D * option (Window → Window) :=
  match cell with
  | Some prevDeps =>
      if decide (prevDeps = deps) then (cell, None)
      else (Some deps, Some effect)
  | None => (Some deps, Some effect)
  end.

(** Runs a scheduled effect, if any. *)
Definition flush (eff : option (Window → Window)) (w : Window) : Window :=
  match eff with
  | Some run => run w
  | None => w
  end.

(** The cells of a component whose only hook call is [useAbTest]: the
    state kept by [useLocalStorage], the [useMemo] cell and the
    [useEffect] cell. *)
Record Fiber := {
  storageState : option (option string);
  memoCell : option (option string * ExperimentName * string);
  effectCell : option (string * option string * ExperimentName);
}.

(** Before the first render no cell exists. *)
Definition unmounted : Fiber :=
  {| storageState := None; memoCell := None; effectCell := None |}.

(** The outcome of a call of [useLocalStorage]: the state cell, the
    window, the layout effect left for the commit, and the state handed
    to the caller. *)
Record StorageRender := {
  cell_after : option (option string);
  window_after : Window;
  layout_after : option (Window → Window * option string);
  state : option string;
}.

(** What [useAnonId] hands back to its caller, with the same bookkeeping. *)
Record AnonIdRender := {
  storage : StorageRender;
  anonId : option string;
}.

(** What [useAbTest] hands back to its caller. *)
Record AbTest := { variant : string }.

(** The outcome of one call of [useAbTest] during a render: the new
    cells, the window, the effects left for the commit and the value
    returned to the caller. *)
Record Render := {
  fiber : Fiber;
  window : Window;
  layoutEffect : option (Window → Window * option string);
  effect : option (Window → Window);
  returned : AbTest;
}.

(** ** Sample third-party functions

    Small executable stand-ins, used to run the hooks on concrete
    browsers. *)

(** Picks the variant at index [length seed mod length variants]. *)
Definition split_by_length (seed : string) (variants : list string)
  : string :=
  default EmptyString
    (variants !! (String.length seed `mod` length variants)).

Definition dquote : Ascii.ascii := Ascii.ascii_of_nat 34.

(** Reads the text up to a closing double quote that ends the input. *)
Fixpoint unquote_tail (s : string) : option string :=
  match s with
  | EmptyString => None
  | String c EmptyString =>
      if decide (c = dquote) then Some EmptyString else None
  | String c s' => String c <$> unquote_tail s'
  end.

(** Parses a text between double quotes; anything else fails. *)
Definition parse_quoted (s : string) : option string :=
  match s with
  | String c s' => if decide (c = dquote) then unquote_tail s' else None
  | EmptyString => None
  end.

(** Puts a text between double quotes. *)
Definition quoted (s : string) : string :=
  String dquote (s +:+ String dquote EmptyString).

(** A browser that holds the identifier [id] for the site. *)
Definition returning_window (id : string) : Window :=
  {| localStorage := {[ "inngest-anon-id" := quoted id ]};
     Inngest := [] |}.

(** Consecutive repetitions removed: [changes e es] keeps the elements of
    [es] that differ from their predecessor in [e :: es]. *)
Fixpoint changes (prev : ExperimentName) (es : list ExperimentName)
  : list ExperimentName :=
  match es with
  | [] => []
  | e :: es' =>
      if decide (prev = e) then changes prev es' else e :: changes e es'
  end.

(** The seed [useAbTest] hands to [deterministicSplit]:
    [`${anonId}_${experimentName}`]. *)
Definition seed (anonId : option string) (experimentName : ExperimentName)
  : string :=
  Js.template anonId +:+ "_" +:+ key_of experimentName.

Section Hooks.

(** [deterministicSplit(seed, variants)] of the deterministic-split
    package. *)
Variable deterministicSplit : string → list string → string.

(** [JSON.parse] at type [string]; [None] when it throws. *)
Variable JSON_parse : string → option string.

(** [JSON.stringify] at type [string]. *)
Variable JSON_stringify : string → string.

(** *** react-use's [useLocalStorage] *)

(** The initializer reads the item.  A stored text is deserialized (a
    failing parse falls back to the initial value); without a stored text
    a truthy initial value is written and returned. *)
Definition initializer (key : string) (initialValue : option string)
    (w : Window) : Window * option string :=
  match getItem key w with
  | Some localStorageValue =>
      match JSON_parse localStorageValue with
      | Some value => (w, Some value)
      | None => (w, initialValue)
      end
  | None =>
      match initialValue with
      | Some value =>
          if Js.truthy value
          then (setItem key (JSON_stringify value) w, initialValue)
          else (w, initialValue)
      | None => (w, None)
      end
  end.

(** [const [state] = useLocalStorage<string>(key, initialValue)].
    On mount the state cell is filled by the initializer and a layout
    effect that runs the initializer again is scheduled; afterwards the
    kept state is returned. *)
Definition useLocalStorage (cell : option (option string))
    (key : string) (initialValue : option string) (w : Window)
  : StorageRender :=
  match cell with
  | Some kept =>
      {| cell_after := cell; window_after := w;
         layout_after := None; state := kept |}
  | None =>
      let '(w', read) := initializer key initialValue w in
      {| cell_after := Some read; window_after := w';
         layout_after := Some (initializer key initialValue);
         state := read |}
  end.

(** *** The hooks of [page.tsx] *)

(** Fetch and return the user's anonymous ID. *)
Definition useAnonId (cell : option (option string)) (w : Window)
  : AnonIdRender :=
  let r := useLocalStorage cell "inngest-anon-id" None w in
  {| storage := r; anonId := state r |}.

(** The factory handed to [useMemo]. *)
Definition split_variant (anonId : option string)
    (experimentName : ExperimentName) : string :=
  deterministicSplit
    (Js.template anonId +:+ "_" +:+ key_of experimentName)
    (abExperiments experimentName).

(** The event handed to [window.Inngest.event] by the effect. *)
Definition experiment_viewed (anonId : option string)
    (experimentName : ExperimentName) (variant : string)
  : Analytics.Event :=
  {| Analytics.name := "app/experiment.viewed";
     Analytics.data :=
       {| Analytics.anonymous_id := anonId;
          Analytics.experiment := key_of experimentName;
          Analytics.variant := variant |} |}.

(** Fetch the user's current variant for a particular AB experiment. *)
Definition useAbTest (experimentName : ExperimentName)
    (f : Fiber) (w : Window) : Render :=
  let id := useAnonId (storageState f) w in
  let '(memoCell', variant) :=
    useMemo (memoCell f)
      (λ _, split_variant (anonId id) experimentName)
      (anonId id, experimentName) in
  let '(effectCell', eff) :=
    useEffect (effectCell f)
      (Inngest_event
         (experiment_viewed (anonId id) experimentName variant))
      (variant, anonId id, experimentName) in
  {| fiber := {| storageState := cell_after (storage id);
                 memoCell := memoCell';
                 effectCell := effectCell' |};
     window := window_after (storage id);
     layoutEffect := layout_after (storage id);
     effect := eff;
     returned := {| variant := variant |} |}.

(** *** Render and commit *)

(** One pass of React over the component: the hook is called, then the
    commit runs the layout effect of [useLocalStorage] (which sets the
    state to what the initializer reads now) and the scheduled effect.
    When the layout effect changed the state the component is rendered
    once more. *)
Definition render (experimentName : ExperimentName)
    (f : Fiber) (w : Window) : Fiber * Window * AbTest :=
  let r := useAbTest experimentName f w in
  match layoutEffect r with
  | None => (fiber r, flush (effect r) (window r), returned r)
  | Some setState =>
      let '(w1, read) := setState (window r) in
      let f1 := {| storageState := Some read;
                   memoCell := memoCell (fiber r);
                   effectCell := effectCell (fiber r) |} in
      let w2 := flush (effect r) w1 in
      if decide (storageState (fiber r) = Some read)
      then (f1, w2, returned r)
      else
        let r' := useAbTest experimentName f1 w2 in
        (fiber r', flush (effect r') (window r'), returned r')
  end.

(** The first render of a component. *)
Definition mount (experimentName : ExperimentName) (w : Window)
  : Fiber * Window * AbTest :=
  render experimentName unmounted w.

(** The later renders of a mounted component, each with the experiment
    name its caller passes then. *)
Fixpoint rerender (names : list ExperimentName) (f : Fiber) (w : Window)
  : Fiber * Window :=
  match names with
  | [] => (f, w)
  | experimentName :: names' =>
      let '(f', w', _) := render experimentName f w in
      rerender names' f' w'
  end.

(** A whole mount: the first render with [experimentName], then one
    render per element of [names]; the result is the final window. *)
Definition lifetime (experimentName : ExperimentName)
    (names : list ExperimentName) (w : Window) : Window :=
  let '(f, w', _) := mount experimentName w in
  (rerender names f w').2.

(** The cells a component can hold: none before the mount, and then
    whatever a render leaves, in any window. *)
Inductive reachable : Fiber → Prop :=
  | reachable_unmounted : reachable unmounted
  | reachable_render experimentName f w :
      reachable f → reachable (render experimentName f w).1.1.

(** The identifier the storage of [w] holds for the site, deserialized. *)
Definition stored (w : Window) : option string :=
  getItem "inngest-anon-id" w ≫= JSON_parse.

(** The cells of a component whose last render read the identifier
    [anon] and was passed [experimentName]. *)
Definition settled (anon : option string) (experimentName : ExperimentName)
  : Fiber :=
  {| storageState := Some anon;
     memoCell :=
       Some (anon, experimentName, split_variant anon experimentName);
     effectCell :=
       Some (split_variant anon experimentName, anon, experimentName) |}.

(** The event reporting the variant of [experimentName] for [anon]. *)
Definition viewed (anon : option string) (experimentName : ExperimentName)
  : Analytics.Event :=
  experiment_viewed anon experimentName
    (split_variant anon experimentName).

(** ** Equations of the hooks *)

Lemma initializer_readonly key w :
  initializer key None w = (w, getItem key w ≫= JSON_parse).
Proof.
  unfold initializer.
  destruct (getItem key w) as [raw|]; simpl; [|done].
  by destruct (JSON_parse raw).
Qed.

Lemma useAnonId_unmounted w :
  useAnonId None w =
  {| storage := {| cell_after := Some (stored w); window_after := w;
                   layout_after := Some (initializer "inngest-anon-id" None);
                   state := stored w |};
     anonId := stored w |}.
Proof.
  unfold useAnonId, useLocalStorage.
  by rewrite initializer_readonly.
Qed.

Lemma useAnonId_mounted anon w :
  useAnonId (Some anon) w =
  {| storage := {| cell_after := Some anon; window_after := w;
                   layout_after := None; state := anon |};
     anonId := anon |}.
Proof. reflexivity. Qed.

Lemma useAbTest_unmounted e w :
  useAbTest e unmounted w =
  {| fiber := settled (stored w) e;
     window := w;
     layoutEffect := Some (initializer "inngest-anon-id" None);
     effect := Some (Inngest_event (viewed (stored w) e));
     returned := {| variant := split_variant (stored w) e |} |}.
Proof.
  unfold useAbTest.
  change (storageState unmounted) with (@None (option string)).
  by rewrite useAnonId_unmounted.
Qed.

Lemma useAbTest_settled e anon e0 w :
  useAbTest e (settled anon e0) w =
  {| fiber := settled anon e;
     window := w;
     layoutEffect := None;
     effect := if decide (e0 = e) then None
               else Some (Inngest_event (viewed anon e));
     returned := {| variant := split_variant anon e |} |}.
Proof.
  unfold useAbTest, settled. simpl.
  destruct (decide (e0 = e)) as [->|Hne].
  - by rewrite !decide_True.
  - rewrite !decide_False by congruence. done.
Qed.

Lemma mount_eq e w :
  mount e w =
  (settled (stored w) e, Inngest_event (viewed (stored w) e) w,
   {| variant := split_variant (stored w) e |}).
Proof.
  unfold mount, render. rewrite useAbTest_unmounted. simpl.
  rewrite initializer_readonly. fold (stored w).
  by rewrite decide_True.
Qed.

Lemma render_settled e anon e0 w :
  render e (settled anon e0) w =
  (settled anon e,
   if decide (e0 = e) then w else Inngest_event (viewed anon e) w,
   {| variant := split_variant anon e |}).
Proof.
  unfold render. rewrite useAbTest_settled. simpl.
  by destruct (decide (e0 = e)).
Qed.

Lemma reachable_inv f :
  reachable f → f = unmounted ∨ ∃ anon e, f = settled anon e.
Proof.
  induction 1 as [|e f w _ [->|(anon & e0 & ->)]].
  - by left.
  - right. fold (mount e w). rewrite mount_eq. simpl. eauto.
  - right. rewrite render_settled. simpl. eauto.
Qed.

Lemma reachable_settled e w : reachable (settled (stored w) e).
Proof.
  pose proof (reachable_render e unmounted w reachable_unmounted) as H.
  fold (mount e w) in H. by rewrite mount_eq in H.
Qed.

Lemma useAbTest_variant_eq e f w :
  reachable f →
  variant (returned (useAbTest e f w)) =
  split_variant (anonId (useAnonId (storageState f) w)) e.
Proof.
  intros [->|(anon & e0 & ->)]%reachable_inv.
  - rewrite useAbTest_unmounted.
    change (storageState unmounted) with (@None (option string)).
    by rewrite useAnonId_unmounted.
  - by rewrite useAbTest_settled.
Qed.

Lemma useAnonId_window cell w :
  window_after (storage (useAnonId cell w)) = w.
Proof.
  destruct cell as [anon|]; [done|]. by rewrite useAnonId_unmounted.
Qed.

Lemma flush_localStorage {D} `{EqDecision D} cell ev (deps : D) w :
  localStorage (flush (useEffect cell (Inngest_event ev) deps).2 w) =
  localStorage w.
Proof.
  unfold useEffect. destruct cell as [prev|]; [|done].
  by destruct (decide (prev = deps)).
Qed.

Lemma useAbTest_window e f w : window (useAbTest e f w) = w.
Proof.
  unfold useAbTest.
  destruct (useMemo _ _ _) as [m v]. destruct (useEffect _ _ _) as [c eff].
  cbn [window]. apply useAnonId_window.
Qed.

Lemma useAbTest_effect_localStorage e f w w' :
  localStorage (flush (effect (useAbTest e f w)) w') = localStorage w'.
Proof.
  unfold useAbTest.
  destruct (useMemo _ _ _) as [m v].
  pose proof (flush_localStorage (effectCell f)
    (experiment_viewed (anonId (useAnonId (storageState f) w)) e v)
    (v, anonId (useAnonId (storageState f) w), e) w') as H.
  destruct (useEffect _ _ _) as [c eff]. exact H.
Qed.

Lemma useAbTest_layoutEffect e f w setState :
  layoutEffect (useAbTest e f w) = Some setState →
  setState = initializer "inngest-anon-id" None.
Proof.
  unfold useAbTest.
  destruct (useMemo _ _ _) as [m v]. destruct (useEffect _ _ _) as [c eff].
  cbn [layoutEffect]. destruct (storageState f) as [anon|]; [done|].
  rewrite useAnonId_unmounted. simpl. congruence.
Qed.

Lemma render_localStorage e f w :
  localStorage (render e f w).1.2 = localStorage w.
Proof.
  unfold render.
  destruct (layoutEffect (useAbTest e f w)) as [setState|] eqn:Hlayout.
  - apply useAbTest_layoutEffect in Hlayout as ->.
    rewrite initializer_readonly, useAbTest_window.
    case_decide; simpl.
    + apply useAbTest_effect_localStorage.
    + by rewrite useAbTest_window, !useAbTest_effect_localStorage.
  - simpl. by rewrite useAbTest_effect_localStorage, useAbTest_window.
Qed.

Lemma changes_constant e names :
  (∀ e', e' ∈ names → e' = e) → changes e names = [].
Proof.
  induction names as [|e' names IH]; intros Hall; [done|].
  simpl. rewrite decide_True.
  - apply IH. intros e'' ?. apply Hall. by right.
  - symmetry. apply Hall. by left.
Qed.

Lemma rerender_settled names anon e0 w :
  ∃ e', rerender names (settled anon e0) w =
  (settled anon e',
   {| localStorage := localStorage w;
      Inngest := Inngest w ++ (viewed anon <$> changes e0 names) |}).
Proof.
  revert e0 w. induction names as [|e names IH]; intros e0 w.
  - exists e0. simpl. rewrite app_nil_r. by destruct w.
  - cbn [rerender changes]. rewrite render_settled.
    destruct (decide (e0 = e)) as [->|Hne]; [apply IH|].
    destruct (IH e (Inngest_event (viewed anon e) w)) as [e' ->].
    exists e'. simpl. by rewrite <- app_assoc.
Qed.

Lemma lifetime_eq e names w :
  lifetime e names w =
  {| localStorage := localStorage w;
     Inngest := Inngest w ++ (viewed (stored w) <$> e :: changes e names) |}.
Proof.
  unfold lifetime. rewrite mount_eq.
  destruct (rerender_settled names (stored w) e
              (Inngest_event (viewed (stored w) e) w)) as [e' ->].
  simpl. by rewrite <- app_assoc.
Qed.

(** ** The variant *)

(** C1. The variant [useAbTest] resolves is determined by the identifier
    and the experiment name alone: two calls of the hook, from whatever
    cells a component can hold and in whatever windows, that read equal
    identifiers and are passed equal experiment names return the same
    variant. *)
Theorem useAbTest_variant_determined f1 f2 w1 w2 e1 e2 :
  reachable f1 → reachable f2 →
  anonId (useAnonId (storageState f1) w1) =
    anonId (useAnonId (storageState f2) w2) →
  e1 = e2 →
  variant (returned (useAbTest e1 f1 w1)) =
    variant (returned (useAbTest e2 f2 w2)).
Proof.
  intros H1 H2 Hid ->.
  rewrite !useAbTest_variant_eq by done. by rewrite Hid.
Qed.

(** C2. The variant [useAbTest] returns is [deterministicSplit] applied to
    the identifier, an underscore and the experiment name, and to the
    variant list of that experiment. *)
Theorem useAbTest_variant_is_split e f w :
  reachable f →
  variant (returned (useAbTest e f w)) =
  deterministicSplit
    (Js.template (anonId (useAnonId (storageState f) w))
       +:+ "_" +:+ key_of e)
    (abExperiments e).
Proof. intros Hf. by rewrite useAbTest_variant_eq. Qed.

(** C6, as the code has it.  When nothing is stored under
    ["inngest-anon-id"] as the component mounts, [useAnonId] yields an
    undefined identifier on the first render and on every later render of
    the mount, whatever the storage holds by then; [useAbTest] returns the
    split of ["undefined_" + experimentName] on each of them; and so two
    visitors without a stored identifier as they mount get the same
    variant of an experiment. *)
Theorem useAbTest_without_identifier e0 e names w1 w2 w w' :
  getItem "inngest-anon-id" w1 = None →
  getItem "inngest-anon-id" w2 = None →
  let later := (rerender names (mount e0 w1).1.1 w).1 in
  anonId (useAnonId (storageState unmounted) w1) = None
  ∧ variant (returned (useAbTest e unmounted w1)) =
      deterministicSplit ("undefined_" +:+ key_of e) (abExperiments e)
  ∧ anonId (useAnonId (storageState later) w') = None
  ∧ variant (returned (useAbTest e later w')) =
      deterministicSplit ("undefined_" +:+ key_of e) (abExperiments e)
  ∧ variant (returned (useAbTest e unmounted w1)) =
      variant (returned (useAbTest e unmounted w2)).
Proof.
  intros Hw1 Hw2.
  assert (stored w1 = None) as Hs1 by (unfold stored; by rewrite Hw1).
  assert (stored w2 = None) as Hs2 by (unfold stored; by rewrite Hw2).
  change (storageState unmounted) with (@None (option string)).
  rewrite useAnonId_unmounted, !useAbTest_unmounted, mount_eq.
  cbn [anonId returned variant fst snd]. rewrite Hs1, Hs2.
  destruct (rerender_settled names None e0 w) as [e1 ->].
  cbn [fst]. rewrite useAbTest_settled. done.
Qed.

(** ** The storage *)

(** C8. [useAnonId] and [useAbTest] never write to the storage: whatever
    the cells and the window, the storage after the hook, and after the
    whole render and commit, is the storage before; in particular the
    item under ["inngest-anon-id"] is untouched. *)
Theorem hooks_leave_localStorage e f w :
  localStorage (window_after (storage (useAnonId (storageState f) w))) =
    localStorage w
  ∧ localStorage (window (useAbTest e f w)) = localStorage w
  ∧ localStorage (render e f w).1.2 = localStorage w
  ∧ getItem "inngest-anon-id" (render e f w).1.2 =
      getItem "inngest-anon-id" w.
Proof.
  split_and!.
  - by rewrite useAnonId_window.
  - by rewrite useAbTest_window.
  - apply render_localStorage.
  - unfold getItem. by rewrite render_localStorage.
Qed.

(** C4, as the code has it.  The hook does not store the identifier, it
    only reads it.  The first render of a mount yields the deserialized
    text stored under ["inngest-anon-id"]: a defined identifier is the one
    the storage holds under that key, and when nothing is stored the
    identifier is undefined and nothing is stored afterwards.  The later
    renders of the mount yield that identifier again, whatever the storage
    holds by then.  No render, first or later, changes the storage. *)
Theorem useAnonId_reads_stored_identifier e0 e names w0 w w' :
  let first := anonId (useAnonId (storageState unmounted) w0) in
  let later := (rerender names (mount e0 w0).1.1 w).1 in
  first = getItem "inngest-anon-id" w0 ≫= JSON_parse
  ∧ (∀ s, first = Some s →
       ∃ raw, getItem "inngest-anon-id" (mount e0 w0).1.2 = Some raw
              ∧ JSON_parse raw = Some s)
  ∧ (getItem "inngest-anon-id" w0 = None →
       first = None
       ∧ getItem "inngest-anon-id" (mount e0 w0).1.2 = None)
  ∧ anonId (useAnonId (storageState later) w') = first
  ∧ localStorage (mount e0 w0).1.2 = localStorage w0
  ∧ localStorage (render e later w').1.2 = localStorage w'.
Proof.
  change (storageState unmounted) with (@None (option string)).
  rewrite useAnonId_unmounted.
  split_and!.
  - reflexivity.
  - rewrite mount_eq. unfold stored, getItem. simpl. intros s Hs.
    destruct (localStorage w0 !! "inngest-anon-id") as [raw|]; [|done].
    by exists raw.
  - rewrite mount_eq. unfold stored, getItem. simpl. by intros ->.
  - rewrite mount_eq. cbn [fst snd anonId].
    by destruct (rerender_settled names (stored w0) e0 w) as [e1 ->].
  - apply render_localStorage.
  - apply render_localStorage.
Qed.

(** ** The analytics events *)

(** C7. The event of a render agrees with what the hook returns.  A render
    emits at most one event, exactly one on mount; the event is named
    ["app/experiment.viewed"], carries the variant returned to the caller,
    the experiment name passed, and the identifier [useAnonId] read. *)
Theorem render_event_consistent e f w :
  reachable f →
  ∃ events,
    Inngest (render e f w).1.2 = Inngest w ++ events
    ∧ (f = unmounted → length events = 1)
    ∧ length events ≤ 1
    ∧ ∀ ev, ev ∈ events →
        Analytics.name ev = "app/experiment.viewed"
        ∧ Analytics.variant (Analytics.data ev) =
            variant (render e f w).2
        ∧ Analytics.experiment (Analytics.data ev) = key_of e
        ∧ Analytics.anonymous_id (Analytics.data ev) =
            anonId (useAnonId (storageState f) w).
Proof.
  intros [->|(anon & e0 & ->)]%reachable_inv.
  - fold (mount e w). rewrite mount_eq.
    change (storageState unmounted) with (@None (option string)).
    rewrite useAnonId_unmounted. simpl.
    exists [viewed (stored w) e]. split_and!; [done..|].
    by intros ev ->%list_elem_of_singleton.
  - rewrite render_settled. simpl.
    destruct (decide (e0 = e)) as [->|Hne].
    + exists []. rewrite app_nil_r. split_and!; [done|done|simpl; lia|].
      by intros ev ?%elem_of_nil.
    + exists [viewed anon e]. split_and!; [done|done|done|].
      by intros ev ->%list_elem_of_singleton.
Qed.

(** C5, as the code has it.  During one mount the events emitted are one
    for the first render and one more for each later render whose
    experiment name differs from that of the render before it, each
    reporting the variant of the name then passed; a mount all of whose
    renders pass the same experiment name emits exactly one event. *)
Theorem lifetime_events e names w :
  let anon := anonId (useAnonId (storageState unmounted) w) in
  emitted w (lifetime e names w) = (viewed anon <$> e :: changes e names)
  ∧ ((∀ e', e' ∈ names → e' = e) →
       emitted w (lifetime e names w) = [viewed anon e]).
Proof.
  change (storageState unmounted) with (@None (option string)).
  rewrite useAnonId_unmounted, lifetime_eq. simpl.
  unfold emitted. simpl. rewrite drop_app_length.
  split; [done|]. intros Hall. by rewrite changes_constant.
Qed.

(** ** Further properties of the hooks *)

Lemma list_ascii_of_string_app s t :
  String.list_ascii_of_string (s +:+ t) =
  String.list_ascii_of_string s ++ String.list_ascii_of_string t.
Proof.
  induction s as [|c s IH]; [done|].
  change (String c s +:+ t) with (String c (s +:+ t)).
  simpl. by rewrite IH.
Qed.

Lemma list_ascii_of_string_inj s t :
  String.list_ascii_of_string s = String.list_ascii_of_string t → s = t.
Proof.
  intros Heq.
  rewrite <- (String.string_of_list_ascii_of_string s),
          <- (String.string_of_list_ascii_of_string t).
  by rewrite Heq.
Qed.

Lemma string_app_inj_2 s1 s2 t1 t2 :
  String.length t1 = String.length t2 →
  s1 +:+ t1 = s2 +:+ t2 → s1 = s2 ∧ t1 = t2.
Proof.
  intros Hlen Heq.
  apply (f_equal String.list_ascii_of_string) in Heq.
  rewrite !list_ascii_of_string_app in Heq.
  apply app_inj_2 in Heq as [H1 H2].
  - split; by apply list_ascii_of_string_inj.
  - clear Heq. revert t2 Hlen.
    induction t1 as [|c t1 IH]; intros [|c' t2] Hlen;
      simplify_eq/=; [done|]. f_equal. by apply IH.
Qed.

Lemma changes_length e names : length (changes e names) ≤ length names.
Proof.
  revert e. induction names as [|x names IH]; intros e; simpl; [lia|].
  destruct (decide (e = x)).
  - specialize (IH e). lia.
  - simpl. specialize (IH x). lia.
Qed.

Lemma changes_adjacent names e i (a b : ExperimentName) :
  (e :: changes e names) !! i = Some a →
  (e :: changes e names) !! S i = Some b →
  a ≠ b.
Proof.
  revert e i. induction names as [|x names IH]; intros e i Ha Hb.
  - destruct i; simplify_eq/=.
  - cbn [changes] in Ha, Hb. destruct (decide (e = x)) as [->|Hne].
    + by eapply IH.
    + destruct i as [|i]; [by simplify_eq/=|].
      by eapply (IH x i).
Qed.

Lemma stored_Inngest_event ev w : stored (Inngest_event ev w) = stored w.
Proof. reflexivity. Qed.

(** The seed of the split tells experiments and identifiers apart: the
    factory splits on [seed], and two seeds are equal exactly when the
    experiment names are equal and the identifiers render to the same
    text; in particular two defined identifiers with the same seed are
    equal. *)
Theorem seed_separates anon anon' e e' :
  split_variant anon e = deterministicSplit (seed anon e) (abExperiments e)
  ∧ (seed anon e = seed anon' e' ↔
       e = e' ∧ Js.template anon = Js.template anon')
  ∧ (∀ s s', anon = Some s → anon' = Some s' →
       seed anon e = seed anon' e' → s = s').
Proof.
  assert (seed anon e = seed anon' e' →
          e = e' ∧ Js.template anon = Js.template anon') as Hsep.
  { unfold seed. intros [Hid Hkey]%string_app_inj_2.
    - split; [|done]. by destruct e, e'.
    - by destruct e, e'. }
  split_and!; [done|split; [done|]|].
  - intros [-> Hid]. unfold seed. by rewrite Hid.
  - intros s s' -> -> [_ Hid]%Hsep. exact Hid.
Qed.

(** A visitor whose stored identifier is the text [undefined] gets, for
    every experiment, the variant of the visitors without identifier,
    while the two events report different identifiers. *)
Theorem undefined_text_collides e w1 w2 :
  anonId (useAnonId (storageState unmounted) w1) = Some "undefined" →
  anonId (useAnonId (storageState unmounted) w2) = None →
  variant (mount e w1).2 = variant (mount e w2).2
  ∧ Analytics.anonymous_id <$> (Analytics.data <$> emitted w1 (mount e w1).1.2)
      = [Some "undefined"]
  ∧ Analytics.anonymous_id <$> (Analytics.data <$> emitted w2 (mount e w2).1.2)
      = [None].
Proof.
  change (storageState unmounted) with (@None (option string)).
  rewrite !useAnonId_unmounted, !mount_eq. simpl. intros -> ->.
  unfold emitted. simpl. by rewrite !drop_app_length.
Qed.

(** The identifier is read once per mount: whatever the later renders of
    the component and whatever the storage holds by then, the hook yields
    the identifier read by the first render and the variant split from
    it. *)
Theorem identifier_read_once e0 w0 names w e w' :
  let f := (rerender names (mount e0 w0).1.1 w).1 in
  let anon := anonId (useAnonId (storageState unmounted) w0) in
  anonId (useAnonId (storageState f) w') = anon
  ∧ variant (returned (useAbTest e f w')) = split_variant anon e.
Proof.
  change (storageState unmounted) with (@None (option string)).
  rewrite useAnonId_unmounted, mount_eq. simpl.
  destruct (rerender_settled names (stored w0) e0 w) as [e1 ->]. simpl.
  by rewrite useAbTest_settled.
Qed.

(** A stored text that does not deserialize counts as no identifier: the
    hook yields an undefined identifier, the variant is the split of
    ["undefined_" + experimentName], the event reports no identifier, and
    the stored text stays as it is. *)
Theorem unparsable_identifier_ignored e w raw :
  getItem "inngest-anon-id" w = Some raw →
  JSON_parse raw = None →
  anonId (useAnonId (storageState unmounted) w) = None
  ∧ variant (mount e w).2 =
      deterministicSplit ("undefined_" +:+ key_of e) (abExperiments e)
  ∧ emitted w (mount e w).1.2 = [viewed None e]
  ∧ getItem "inngest-anon-id" (mount e w).1.2 = Some raw.
Proof.
  intros Hraw Hparse.
  change (storageState unmounted) with (@None (option string)).
  rewrite useAnonId_unmounted, mount_eq. simpl.
  assert (stored w = None) as ->.
  { unfold stored. by rewrite Hraw. }
  unfold emitted. simpl. by rewrite drop_app_length.
Qed.

(** The events of one mount extend the log of the analytics client: what
    was sent before stays, between one and [1 + length names] events are
    added, and two events in a row never name the same experiment. *)
Theorem lifetime_events_alternate e names w :
  let events := emitted w (lifetime e names w) in
  Inngest (lifetime e names w) = Inngest w ++ events
  ∧ 1 ≤ length events ≤ S (length names)
  ∧ ∀ i ev ev',
      events !! i = Some ev → events !! S i = Some ev' →
      Analytics.experiment (Analytics.data ev) ≠
        Analytics.experiment (Analytics.data ev').
Proof.
  rewrite lifetime_eq. unfold emitted. cbn [Inngest].
  rewrite drop_app_length, length_fmap.
  split_and!; [done|simpl; lia| |].
  - simpl. pose proof (changes_length e names). lia.
  - intros i ev ev' Hev Hev'.
    apply list_lookup_fmap_Some in Hev as (a & -> & Ha).
    apply list_lookup_fmap_Some in Hev' as (b & -> & Hb).
    pose proof (changes_adjacent names e i a b Ha Hb) as Hne.
    simpl. by destruct a, b.
Qed.

(** Rendering again with the experiment name of the last render does
    nothing: the cells stay, no event is emitted in whatever window the
    render runs, and the caller gets the same variant. *)
Theorem render_again_is_noop e f w w' :
  reachable f →
  render e (render e f w).1.1 w' =
  ((render e f w).1.1, w', (render e f w).2).
Proof.
  intros [->|(anon & e0 & ->)]%reachable_inv.
  - fold (mount e w). rewrite mount_eq. simpl.
    rewrite render_settled. by rewrite decide_True.
  - rewrite render_settled. simpl.
    rewrite render_settled. by rewrite decide_True.
Qed.

(** Two components of one page, each with its own experiment: mounted one
    after the other they emit one event each, in that order, both with the
    identifier the storage held before, and the storage is left as it
    was. *)
Theorem two_experiments_one_visitor e1 e2 w :
  let w1 := (mount e1 w).1.2 in
  let w2 := (mount e2 w1).1.2 in
  let anon := anonId (useAnonId (storageState unmounted) w) in
  emitted w w2 = [viewed anon e1; viewed anon e2]
  ∧ variant (mount e1 w).2 = split_variant anon e1
  ∧ variant (mount e2 w1).2 = split_variant anon e2
  ∧ localStorage w2 = localStorage w.
Proof.
  change (storageState unmounted) with (@None (option string)).
  rewrite useAnonId_unmounted, !mount_eq. simpl.
  rewrite !mount_eq. simpl. rewrite stored_Inngest_event.
  unfold emitted. simpl.
  rewrite <- app_assoc. by rewrite drop_app_length.
Qed.

Section Selects.

(** What the deterministic-split package promises: the result is one of
    the variants it was given. *)
Hypothesis deterministicSplit_selects :
  ∀ seed variants,
    variants ≠ [] → deterministicSplit seed variants ∈ variants.

(** C3. The variant [useAbTest] returns is one of the variants listed for
    the experiment: ["kill-queues-headline"] or
    ["event-driven-headerline"] for [header], ["removed"] or
    ["highlighted"] for [footer]. *)
Theorem useAbTest_variant_enumerated e f w :
  reachable f →
  let v := variant (returned (useAbTest e f w)) in
  v ∈ abExperiments e
  ∧ match e with
    | header => v = "kill-queues-headline" ∨ v = "event-driven-headerline"
    | footer => v = "removed" ∨ v = "highlighted"
    end.
Proof.
  intros Hf v.
  assert (v ∈ abExperiments e) as Hin.
  { subst v. rewrite useAbTest_variant_eq by done.
    apply deterministicSplit_selects. by destruct e. }
  split; [done|].
  destruct e; simpl in Hin;
    apply elem_of_cons in Hin as [Hv|Hin]; [by left| |by left|];
    apply elem_of_cons in Hin as [Hv|Hin]; [by right| |by right|];
    by apply elem_of_nil in Hin.
Qed.

(** Every event of a mount is an ["app/experiment.viewed"] event with the
    identifier read by the first render, names one of the experiments and
    reports one of the variants listed for that experiment. *)
Theorem lifetime_events_valid e names w ev :
  ev ∈ emitted w (lifetime e names w) →
  Analytics.name ev = "app/experiment.viewed"
  ∧ Analytics.anonymous_id (Analytics.data ev) =
      anonId (useAnonId (storageState unmounted) w)
  ∧ ∃ e', Analytics.experiment (Analytics.data ev) = key_of e'
          ∧ Analytics.variant (Analytics.data ev) ∈ abExperiments e'.
Proof.
  change (storageState unmounted) with (@None (option string)).
  rewrite useAnonId_unmounted, lifetime_eq. unfold emitted.
  cbn [Inngest anonId]. rewrite drop_app_length.
  intros (e' & -> & _)%list_elem_of_fmap.
  split_and!; [done|done|]. exists e'. split; [done|]. simpl.
  apply deterministicSplit_selects. by destruct e'.
Qed.

End Selects.

End Hooks.

(** ** The hooks on concrete browsers *)

Lemma split_by_length_selects seed variants :
  variants ≠ [] → split_by_length seed variants ∈ variants.
Proof.
  intros Hne. unfold split_by_length.
  assert (String.length seed `mod` length variants < length variants)
    as Hlt.
  { apply Nat.mod_upper_bound. by destruct variants. }
  apply lookup_lt_is_Some_2 in Hlt as [v Hv].
  rewrite Hv. simpl. by eapply list_elem_of_lookup_2.
Qed.

(** A visitor with identifier ["abc"]: the first render, and a later
    render of the same component after the storage was cleared, resolve
    the same variant. *)
Lemma useAbTest_variant_determined_witness :
  let f2 :=
    (render split_by_length parse_quoted quoted
       footer unmounted (returning_window "abc")).1.1 in
  variant (returned (useAbTest split_by_length parse_quoted quoted
                       header unmounted (returning_window "abc"))) =
  variant (returned (useAbTest split_by_length parse_quoted quoted
                       header f2 fresh_window)).
Proof.
  intros f2.
  apply (useAbTest_variant_determined split_by_length parse_quoted quoted
           unmounted f2 (returning_window "abc") fresh_window
           header header).
  - apply reachable_unmounted.
  - apply reachable_render, reachable_unmounted.
  - vm_compute. reflexivity.
  - reflexivity.
Defined.

Lemma useAbTest_variant_is_split_witness :
  variant (returned (useAbTest split_by_length parse_quoted quoted
                       footer unmounted (returning_window "abc"))) =
  split_by_length "abc_footer" ["removed"; "highlighted"].
Proof.
  apply (useAbTest_variant_is_split split_by_length parse_quoted quoted
           footer unmounted (returning_window "abc")).
  apply reachable_unmounted.
Defined.

Lemma useAbTest_variant_enumerated_witness :
  variant (returned (useAbTest split_by_length parse_quoted quoted
                       header unmounted (returning_window "abc")))
    ∈ abExperiments header.
Proof.
  apply (useAbTest_variant_enumerated split_by_length parse_quoted quoted
           split_by_length_selects
           header unmounted (returning_window "abc")).
  apply reachable_unmounted.
Defined.

(** Two visitors without an identifier as they mount, one of them with
    another item in the storage and an event already sent; the first one
    is rendered again after an identifier has been stored. *)
Lemma useAbTest_without_identifier_witness :
  let other :=
    {| localStorage := {[ "theme" := "dark" ]};
       Inngest := [viewed split_by_length None footer] |} in
  let later :=
    (rerender split_by_length parse_quoted quoted [footer]
       (mount split_by_length parse_quoted quoted
          header fresh_window).1.1 fresh_window).1 in
  anonId (useAnonId parse_quoted quoted
            (storageState unmounted) fresh_window) = None
  ∧ variant (returned (useAbTest split_by_length parse_quoted quoted
                         header unmounted fresh_window)) =
      split_by_length "undefined_header" (abExperiments header)
  ∧ anonId (useAnonId parse_quoted quoted
              (storageState later) (returning_window "abcd")) = None
  ∧ variant (returned (useAbTest split_by_length parse_quoted quoted
                         header later (returning_window "abcd"))) =
      split_by_length "undefined_header" (abExperiments header)
  ∧ variant (returned (useAbTest split_by_length parse_quoted quoted
                         header unmounted fresh_window)) =
      variant (returned (useAbTest split_by_length parse_quoted quoted
                           header unmounted other)).
Proof.
  intros other later.
  apply (useAbTest_without_identifier split_by_length parse_quoted quoted
           header header [footer] fresh_window other fresh_window
           (returning_window "abcd")); reflexivity.
Defined.

Lemma useAnonId_reads_stored_identifier_witness :
  let later :=
    (rerender split_by_length parse_quoted quoted [footer]
       (mount split_by_length parse_quoted quoted
          header (returning_window "abc")).1.1 (returning_window "abc")).1 in
  anonId (useAnonId parse_quoted quoted
            (storageState unmounted) (returning_window "abc")) =
    Some "abc"
  ∧ anonId (useAnonId parse_quoted quoted
              (storageState later) fresh_window) = Some "abc"
  ∧ localStorage
      (render split_by_length parse_quoted quoted
         header later fresh_window).1.2 = ∅.
Proof.
  intros later.
  destruct (useAnonId_reads_stored_identifier
              split_by_length parse_quoted quoted
              header header [footer]
              (returning_window "abc") (returning_window "abc")
              fresh_window)
    as (Hfirst & _ & _ & Hlater & _ & Hstorage).
  split_and!.
  - rewrite Hfirst. vm_compute. reflexivity.
  - fold later in Hlater. rewrite Hlater, Hfirst. vm_compute. reflexivity.
  - exact Hstorage.
Defined.

Lemma render_event_consistent_witness :
  ∃ events,
    Inngest (render split_by_length parse_quoted quoted
               header unmounted (returning_window "abc")).1.2 =
      Inngest (returning_window "abc") ++ events
    ∧ length events = 1.
Proof.
  destruct (render_event_consistent split_by_length parse_quoted quoted
              header unmounted (returning_window "abc")
              (reachable_unmounted _ _ _))
    as (events & Hlog & Hone & _).
  exists events. split; [exact Hlog|]. apply Hone. reflexivity.
Defined.

Lemma lifetime_events_witness :
  emitted (returning_window "abc")
    (lifetime split_by_length parse_quoted quoted
       header [header; header] (returning_window "abc")) =
  [viewed split_by_length (Some "abc") header].
Proof.
  apply (lifetime_events split_by_length parse_quoted quoted
           header [header; header] (returning_window "abc")).
  intros e' He'.
  apply elem_of_cons in He' as [->|He']; [reflexivity|].
  apply elem_of_cons in He' as [->|He']; [reflexivity|].
  by apply elem_of_nil in He'.
Defined.

(** A first-time visitor: once the hook has run, nothing is stored under
    ["inngest-anon-id"]. *)
Lemma mount_stores_no_identifier :
  ¬ is_Some
      (getItem "inngest-anon-id"
         (mount split_by_length parse_quoted quoted
            header fresh_window).1.2).
Proof. vm_compute. by intros [raw ?]. Qed.

(** A visitor with the identifier ["abcd"] whose storage is cleared after
    the component mounted: at the next render nothing is stored under
    ["inngest-anon-id"], yet [useAnonId] yields ["abcd"] and the variant
    is the split of ["abcd_header"], not that of ["undefined_header"], and
    not the variant of a first-time visitor. *)
Lemma later_render_keeps_identifier :
  let f :=
    (mount split_by_length parse_quoted quoted
       header (returning_window "abcd")).1.1 in
  let hook :=
    useAbTest split_by_length parse_quoted quoted header f fresh_window in
  reachable split_by_length parse_quoted quoted f
  ∧ getItem "inngest-anon-id" fresh_window = None
  ∧ anonId (useAnonId parse_quoted quoted (storageState f) fresh_window) =
      Some "abcd"
  ∧ variant (returned hook) = "event-driven-headerline"
  ∧ variant (returned hook) ≠
      split_by_length ("undefined_" +:+ key_of header)
        (abExperiments header)
  ∧ variant (returned hook) ≠
      variant (returned (useAbTest split_by_length parse_quoted quoted
                           header unmounted fresh_window)).
Proof.
  split; [apply reachable_render, reachable_unmounted|].
  vm_compute. split_and!; [reflexivity..|discriminate|discriminate].
Qed.

(** A component that is passed [header], then [footer], then [header]
    again during one mount emits three events, and the first and the
    third report the same variant of the same experiment. *)
Lemma mount_reports_variant_twice :
  let events :=
    emitted fresh_window
      (lifetime split_by_length parse_quoted quoted
         header [footer; header] fresh_window) in
  let ev experiment variant :=
    {| Analytics.name := "app/experiment.viewed";
       Analytics.data :=
         {| Analytics.anonymous_id := None;
            Analytics.experiment := experiment;
            Analytics.variant := variant |} |} in
  events = [ev "header" "kill-queues-headline";
            ev "footer" "removed";
            ev "header" "kill-queues-headline"]
  ∧ length events ≠ 1.
Proof. vm_compute. split; [reflexivity|discriminate]. Qed.

(** A visitor whose stored identifier is the text [undefined], and a
    first-time visitor. *)
Lemma undefined_text_collides_witness :
  variant (mount split_by_length parse_quoted quoted
             footer (returning_window "undefined")).2 =
  variant (mount split_by_length parse_quoted quoted
             footer fresh_window).2.
Proof.
  apply (undefined_text_collides split_by_length parse_quoted quoted
           footer (returning_window "undefined") fresh_window);
    vm_compute; reflexivity.
Defined.

(** A browser whose stored text lacks the quotes of a serialized
    string. *)
Lemma unparsable_identifier_ignored_witness :
  let w := {| localStorage := {[ "inngest-anon-id" := "abc" ]};
              Inngest := [] |} in
  anonId (useAnonId parse_quoted quoted (storageState unmounted) w) = None
  ∧ variant (mount split_by_length parse_quoted quoted header w).2 =
      split_by_length "undefined_header" (abExperiments header)
  ∧ emitted w (mount split_by_length parse_quoted quoted header w).1.2 =
      [viewed split_by_length None header]
  ∧ getItem "inngest-anon-id"
      (mount split_by_length parse_quoted quoted header w).1.2 =
      Some "abc".
Proof.
  intros w.
  apply (unparsable_identifier_ignored split_by_length parse_quoted quoted
           header w "abc"); vm_compute; reflexivity.
Defined.

Lemma render_again_is_noop_witness :
  let first :=
    render split_by_length parse_quoted quoted
      header unmounted (returning_window "abc") in
  render split_by_length parse_quoted quoted header first.1.1 fresh_window =
  (first.1.1, fresh_window, first.2).
Proof.
  intros first.
  apply (render_again_is_noop split_by_length parse_quoted quoted
           header unmounted (returning_window "abc") fresh_window).
  apply reachable_unmounted.
Defined.

(** The second event of a mount that switches from [header] to
    [footer]. *)
Lemma lifetime_events_valid_witness :
  ∃ e',
    key_of footer = key_of e'
    ∧ split_by_length "abc_footer" (abExperiments footer)
        ∈ abExperiments e'.
Proof.
  apply (lifetime_events_valid split_by_length parse_quoted quoted
           split_by_length_selects
           header [footer] (returning_window "abc")
           (viewed split_by_length (Some "abc") footer)).
  apply (list_elem_of_lookup_2 _ 1). vm_compute. reflexivity.
Defined.
